(** * The i18n language context of the design system

    A shallow embedding of [src/lib/i18n]: the registry of supported
    languages ([types.ts]), the React context ([LanguageContext.ts]), the
    provider component ([LanguageProvider.tsx]) and the accessor hook
    ([useLanguage.ts]).

    JavaScript values are modelled as they exist at run time: a language
    code is a string, and the TypeScript type [Language] is a predicate on
    strings that the compiler checks and the running code does not.
    Effects (the [useState] cell, [console.warn], the consumer's [onChange]
    callback, exceptions) are threaded through a small state-and-exception
    monad over a [World]. *)

From Stdlib Require Import Ascii String.
From stdpp Require Import gmap strings list.

(** ** JavaScript preliminaries *)

(** The two characters of the error message that a string literal cannot
    hold directly. *)
Definition dquote : string := String "034"%char EmptyString.
Definition newline : string := String "010"%char EmptyString.

(** [new Error(message)]. *)
Record JsError := Error { message : string }.

(** How a JavaScript call completes: it returns, or it throws. *)
Inductive Completion (A : Type) : Type :=
| Normal (a : A)
| Throw (e : JsError).
Arguments Normal {A} a.
Arguments Throw {A} e.

(** What the host environment offers to a module: [process.env.NODE_ENV]
    (possibly undefined) and whether [window] exists, which is what tells a
    server pass from a client pass. *)
Record Env := { NODE_ENV : option string; hasWindow : bool }.

(** Rendered React elements: text, or a host element with its props and
    children. *)
#[local] Unset Elimination Schemes.
Inductive Node : Type :=
| Text (s : string)
| Element (tag : string) (attrs : list (string * string)) (kids : list Node).
#[local] Set Elimination Schemes.

(** [{x}] in JSX where [x] may be undefined: undefined renders nothing. *)
Definition jsx_text (x : option string) : list Node :=
  match x with
  | Some s => [Text s]
  | None => []
  end.

Definition attribute (name : string) (n : Node) : option string :=
  match n with
  | Text _ => None
  | Element _ attrs _ =>
      match list_find (λ kv : string * string, kv.1 = name) attrs with
      | Some (_, (_, v)) => Some v
      | None => None
      end
  end.

Definition childNodes (n : Node) : list Node :=
  match n with
  | Text _ => []
  | Element _ _ kids => kids
  end.

(** ** types.ts *)

Definition SUPPORTED_LANGUAGES : list (string * string) :=
  [ ("en", "English"); ("ja", "Japanese"); ("zh-tw", "Traditional Chinese") ].

(** [type Language = typeof SUPPORTED_LANGUAGES[number]['code']]: the
    strings that are the code of some registry entry. *)
Definition Language (c : string) : Prop := c ∈ SUPPORTED_LANGUAGES.*1.

#[global] Instance Language_dec c : Decision (Language c).
Proof. unfold Language. apply _. Defined.

(** Observable trace of a provider instance, in program order: the state
    setter was called, the consumer callback was called. *)
Inductive Event : Type :=
| StateSet (c : string)
| Notified (c : string).

Section I18n.

(** State owned by the application that embeds the library; the [onChange]
    callback is consumer code and acts on this state only. *)
Context {Host : Type}.

Record World := {
  env : Env;
  langCell : option string;
  console : list string;
  trace : list Event;
  host : Host
}.

Definition with_langCell (c : option string) (w : World) : World :=
  {| env := env w; langCell := c; console := console w;
     trace := trace w; host := host w |}.

Definition with_console (l : list string) (w : World) : World :=
  {| env := env w; langCell := langCell w; console := l;
     trace := trace w; host := host w |}.

Definition with_trace (t : list Event) (w : World) : World :=
  {| env := env w; langCell := langCell w; console := console w;
     trace := t; host := host w |}.

Definition with_host (h : Host) (w : World) : World :=
  {| env := env w; langCell := langCell w; console := console w;
     trace := trace w; host := h |}.

(** *** The effect monad *)

Definition M (A : Type) : Type := World → Completion A * World.

Definition ret {A} (a : A) : M A := λ w, (Normal a, w).

Definition throw {A} (e : JsError) : M A := λ w, (Throw e, w).

(** Sequencing: a throw skips the rest, and what was written before it
    stays written. *)
Definition bind {A B} (m : M A) (k : A → M B) : M B :=
  λ w, match m w with
       | (Normal a, w') => k a w'
       | (Throw e, w') => (Throw e, w')
       end.

Notation "x <- m ;; k" := (bind m (λ x, k))
  (at level 100, m at next level, right associativity).
Notation "m ;;; k" := (bind m (λ _, k))
  (at level 100, right associativity).

Definition read_env : M Env := λ w, (Normal (env w), w).

Definition console_warn (msg : string) : M () :=
  λ w, (Normal (), with_console (console w ++ [msg]) w).

(** [useState(initial)]: the first render stores [initial] in the cell,
    later renders read the cell. *)
Definition useState (initial : string) : M string :=
  λ w, match langCell w with
       | Some v => (Normal v, w)
       | None => (Normal initial, with_langCell (Some initial) w)
       end.

(** The setter returned by [useState]. *)
Definition setLangState (newLang : string) : M () :=
  λ w, (Normal (),
        with_trace (trace w ++ [StateSet newLang])
          (with_langCell (Some newLang) w)).

(** A consumer callback: given the code, it changes the host state and
    returns or throws. *)
Definition Callback : Type := string → Host → Completion () * Host.

Definition call (f : Callback) (arg : string) : M () :=
  λ w, let '(r, h) := f arg (host w) in
       (r, with_host h (with_trace (trace w ++ [Notified arg]) w)).

(** [f?.(arg)]. *)
Definition optional_call (f : option Callback) (arg : string) : M () :=
  match f with
  | Some g => call g arg
  | None => ret ()
  end.

Record LanguageContextValue := {
  lang : string;
  setLang : string → M ()
}.

Record LanguageProviderProps := {
  children : list Node;
  defaultLang : option string;
  onChange : option Callback
}.

(** ** LanguageContext.ts *)

(** [createContext<LanguageContextValue | undefined>(undefined)]. A position
    in the component tree is the list of the values of the providers that
    enclose it, innermost first; [useContext] reads the nearest one, or the
    default. *)
Definition useContext (scopes : list LanguageContextValue)
  : option LanguageContextValue :=
  head scopes.

(** ** LanguageProvider.tsx *)

Definition LANGUAGE_NAMES : gmap string string :=
  <["en" := "English"]> (<["ja" := "Japanese"]>
    (<["zh-tw" := "Traditional Chinese"]> ∅)).

(** The [setLang] closure built by the provider. *)
Definition LanguageProvider_setLang (onChange : option Callback)
    (newLang : string) : M () :=
  setLangState newLang ;;;
  optional_call onChange newLang.

Record Rendered := {
  value : LanguageContextValue;
  markup : Node
}.

Definition LanguageProvider (props : LanguageProviderProps) : M Rendered :=
  lang <- useState (default "en" (defaultLang props)) ;;
  let setLang := LanguageProvider_setLang (onChange props) in
  let value := {| lang := lang; setLang := setLang |} in
  let languageName := LANGUAGE_NAMES !! lang in
  ret {| value := value;
         markup :=
           Element "div" [("lang", lang)]
             (Element "div"
                [("role", "status"); ("aria-live", "polite");
                 ("aria-atomic", "true"); ("className", "sr-only")]
                (jsx_text languageName)
              :: children props) |}.

(** ** useLanguage.ts *)

Definition missing_provider_message : string :=
  "useLanguage must be used within a LanguageProvider. " ++
  "Wrap your app with <LanguageProvider> to enable multilingual typography. " ++
  "Example:" ++ newline ++ newline ++
  "  import { LanguageProvider } from '@your-org/design-system'" ++
  newline ++ newline ++
  "  <LanguageProvider defaultLang=" ++ dquote ++ "en" ++ dquote ++ ">" ++
  newline ++
  "    <YourApp />" ++ newline ++
  "  </LanguageProvider>" ++ newline ++ newline ++
  "See documentation: https://github.com/your-org/design-system#internationalization".

Definition fallback_warning : string :=
  "setLang called outside LanguageProvider. Language changes will have no effect.".

Definition useLanguage (scopes : list LanguageContextValue)
  : M LanguageContextValue :=
  match useContext scopes with
  | None =>
      e <- read_env ;;
      if decide (NODE_ENV e ≠ Some "production")
      then throw (Error missing_provider_message)
      else ret {| lang := "en";
                  setLang := λ _, console_warn fallback_warning |}
  | Some context => ret context
  end.

(** ** Use of the module by an application *)

(** The world in which a provider is about to mount: no state cell yet,
    nothing logged, nothing traced. *)
Definition fresh (e : Env) (h : Host) : World :=
  {| env := e; langCell := None; console := []; trace := []; host := h |}.

(** A descendant of [<LanguageProvider {...props}>] calls [useLanguage()]
    and reads [lang]: the provider renders, the descendant reads the nearest
    context value. *)
Definition consumer_lang (props : LanguageProviderProps) : M string :=
  r <- LanguageProvider props ;;
  context <- useLanguage [value r] ;;
  ret (lang context).

(** A descendant calls [setLang(newLang)] of the value that [useLanguage()]
    gave it, as an event handler does. *)
Definition consumer_setLang (props : LanguageProviderProps)
    (newLang : string) : M () :=
  r <- LanguageProvider props ;;
  context <- useLanguage [value r] ;;
  setLang context newLang.

(** A sequence of such calls. An exception that escapes one handler does not
    unmount the tree: the next call runs in the world the previous one left. *)
Definition after_calls (props : LanguageProviderProps)
    (calls : list string) (w : World) : World :=
  foldl (λ w' c, (consumer_setLang props c w').2) w calls.

End I18n.

Arguments World Host : clear implicits.
Arguments M Host A : clear implicits.
Arguments Callback Host : clear implicits.
Arguments LanguageContextValue Host : clear implicits.
Arguments LanguageProviderProps Host : clear implicits.
Arguments Rendered Host : clear implicits.

(** ** components/typography/Heading.tsx *)

Module Typography.

(** Truthiness of a JavaScript string: only the empty string is falsy. *)
Definition truthy (s : string) : bool :=
  match s with
  | EmptyString => false
  | String _ _ => true
  end.

(** [a || b] on operands that are a string or undefined: the left operand
    when it is truthy, the right operand otherwise. *)
Definition js_or (a b : option string) : option string :=
  match a with
  | Some s => if truthy s then a else b
  | None => b
  end.

(** [a || 'literal']. *)
Definition js_or_literal (a : option string) (b : string) : string :=
  match a with
  | Some s => if truthy s then s else b
  | None => b
  end.

(** The second argument of [cva]: the class table of every variant and the
    default key of every variant. *)
Record VariantConfig := {
  variants : list (string * list (string * string));
  defaultVariants : list (string * string)
}.

Definition headingConfig : VariantConfig :=
  {| variants :=
       [ ("level",
          [ ("h1", "text-4xl font-bold leading-tight");
            ("h2", "text-3xl font-bold leading-tight");
            ("h3", "text-2xl font-semibold leading-normal");
            ("h4", "text-xl font-semibold leading-normal");
            ("h5", "text-lg font-medium leading-normal");
            ("h6", "text-base font-medium leading-normal") ]);
         ("variant",
          [ ("default", "text-foreground");
            ("muted", "text-muted-foreground");
            ("accent", "text-accent-foreground") ]) ];
     defaultVariants := [ ("level", "h2"); ("variant", "default") ] |}.

(** The values of the prop [as]: ['h1' | 'h2' | 'h3' | 'h4' | 'h5' | 'h6']. *)
Definition headingTags : list string := ["h1"; "h2"; "h3"; "h4"; "h5"; "h6"].

(** The props of [Heading]: the four that the component destructures, and
    the remaining ones ([...props]), which are attributes and children. *)
Record HeadingProps := {
  as_ : option string;
  level : option string;
  variant : option string;
  className : option string;
  rest_attrs : list (string * string);
  rest_children : list Node
}.

Section Components.

(** [cva] of class-variance-authority and [cn] of [@/lib/utils] are not
    part of these sources; the component is modelled over any two such
    functions. *)
Variable cva : string → VariantConfig → list (string * option string) → string.
Variable cn : string → option string → string.

Definition headingVariants : list (string * option string) → string :=
  cva "font-sans tracking-tight" headingConfig.

(** [const Component = as || level || 'h2']. *)
Definition Heading_Component (p : HeadingProps) : string :=
  js_or_literal (js_or (as_ p) (level p)) "h2".

(** The object handed to [headingVariants]:
    [{ level: level || as, variant }]. *)
Definition Heading_variantProps (p : HeadingProps)
  : list (string * option string) :=
  [ ("level", js_or (level p) (as_ p)); ("variant", variant p) ].

Definition Heading (p : HeadingProps) : Node :=
  Element (Heading_Component p)
    (("className",
      cn (headingVariants (Heading_variantProps p)) (className p))
     :: rest_attrs p)
    (rest_children p).

End Components.

End Typography.

(** * Properties *)

(** [phrase] occurs in [msg]. *)
Definition mentions (msg phrase : string) : Prop :=
  ∃ before after : string, msg = (before ++ phrase ++ after)%string.

(** The provider's invariant: the language that the next render reads from
    the state hook is a code of the registry. *)
Definition lang_in_registry {Host} (props : LanguageProviderProps Host)
    (w : World Host) : Prop :=
  Language (match langCell w with
            | Some v => v
            | None => default "en" (defaultLang props)
            end).

(** The announcement region of the provider's markup. *)
Definition announcement (text : list Node) : Node :=
  Element "div"
    [("role", "status"); ("aria-live", "polite");
     ("aria-atomic", "true"); ("className", "sr-only")]
    text.

(** What the provider shows for language [c] when it renders in world [w]:
    consumers read [c], the wrapping [div] carries [lang = c], and its first
    child is the announcement region, followed by the caller's children;
    when the registry lists [c], the region holds exactly the registry's
    display name of [c]. *)
Definition renders_language {Host} (props : LanguageProviderProps Host)
    (w : World Host) (c : string) : Prop :=
  ∃ r text,
    (LanguageProvider props w).1 = Normal r ∧
    lang (value r) = c ∧
    attribute "lang" (markup r) = Some c ∧
    childNodes (markup r) = announcement text :: children props ∧
    ∀ name, (c, name) ∈ SUPPORTED_LANGUAGES → text = [Text name].

(** Concrete inputs used below. *)
Definition node_env (mode : string) : Env :=
  {| NODE_ENV := Some mode; hasWindow := true |}.

Definition plain_props (d : string) : LanguageProviderProps () :=
  {| children := []; defaultLang := Some d; onChange := None |}.

Definition failing_onChange : Callback () :=
  λ _ h, (Throw (Error "onChange failed"), h).

Definition recording_onChange : Callback (list string) :=
  λ c h, (Normal (), h ++ [c]).

(** A server pass and a client pass. *)
Definition server_env : Env :=
  {| NODE_ENV := Some "production"; hasWindow := false |}.
Definition client_env : Env :=
  {| NODE_ENV := Some "development"; hasWindow := true |}.

(** A context value whose [setLang] does nothing. *)
Definition inert_context (c : string) : LanguageContextValue () :=
  {| lang := c; setLang := λ _ w, (Normal (), w) |}.

Section Properties.

Context {Host : Type}.
Implicit Types (w : World Host) (props : LanguageProviderProps Host).
Implicit Types (c newLang : string) (f : Callback Host).

(** ** The provider's render and its [setLang] closure *)

(** The language a render reads from the state hook. *)
Lemma useState_reads initial w :
  ∃ c, useState initial w = (Normal c, with_langCell (Some c) w) ∧
       c = match langCell w with Some v => v | None => initial end.
Proof.
  unfold useState. destruct w as [e [v|] co t h]; cbn; eauto.
Qed.

(** A render always returns; its context value carries the language read
    from the hook and the [setLang] closure, and the only thing it writes
    is the initial value of the hook. *)
Lemma LanguageProvider_returns props w :
  ∃ r c, LanguageProvider props w = (Normal r, with_langCell (Some c) w) ∧
    c = match langCell w with
        | Some v => v
        | None => default "en" (defaultLang props)
        end ∧
    lang (value r) = c ∧
    setLang (value r) = LanguageProvider_setLang (onChange props) ∧
    markup r =
      Element "div" [("lang", c)]
        (Element "div"
           [("role", "status"); ("aria-live", "polite");
            ("aria-atomic", "true"); ("className", "sr-only")]
           (jsx_text (LANGUAGE_NAMES !! c))
         :: children props).
Proof.
  destruct (useState_reads (default "en" (defaultLang props)) w)
    as (c & Hu & Hc).
  unfold LanguageProvider, bind. rewrite Hu. cbn.
  eexists _, c. repeat split; auto.
Qed.

(** What one call of the closure does, step by step. *)
Lemma LanguageProvider_setLang_unfold (oc : option (Callback Host)) newLang w :
  LanguageProvider_setLang oc newLang w =
  optional_call oc newLang
    (with_trace (trace w ++ [StateSet newLang])
       (with_langCell (Some newLang) w)).
Proof. reflexivity. Qed.

Lemma consumer_setLang_unfold props newLang w :
  ∃ c, consumer_setLang props newLang w =
       LanguageProvider_setLang (onChange props) newLang
         (with_langCell (Some c) w).
Proof.
  destruct (LanguageProvider_returns props w) as (r & c & Hr & _ & _ & Hs & _).
  exists c. unfold consumer_setLang, bind. rewrite Hr. cbn.
  unfold ret. now rewrite Hs.
Qed.

Lemma consumer_lang_unfold props w :
  consumer_lang props w =
  (Normal (match langCell w with
           | Some v => v
           | None => default "en" (defaultLang props)
           end),
   with_langCell
     (Some (match langCell w with
            | Some v => v
            | None => default "en" (defaultLang props)
            end)) w).
Proof.
  destruct (LanguageProvider_returns props w) as (r & c & Hr & Hc & Hl & _).
  unfold consumer_lang, bind. rewrite Hr. cbn. unfold ret.
  now rewrite Hl, Hc.
Qed.

(** The cell after a call holds the argument, whatever the callback did. *)
Lemma LanguageProvider_setLang_cell (oc : option (Callback Host)) newLang w :
  langCell (LanguageProvider_setLang oc newLang w).2 = Some newLang.
Proof.
  rewrite LanguageProvider_setLang_unfold.
  destruct oc as [f|]; cbn; [|reflexivity].
  unfold call. cbn. now destruct (f newLang (host w)).
Qed.

(** ** Writes through [setLang] *)

(** C1 (as the code has it). [setLang] does not validate its argument: for
    every code [c] outside the registry, the call stores [c] as the language
    state and raises nothing of its own; it completes normally when no
    [onChange] was supplied, and as [onChange c] completes otherwise. *)
Theorem setLang_unlisted_code_is_stored
    (oc : option (Callback Host)) c w :
  ¬ Language c →
  langCell (LanguageProvider_setLang oc c w).2 = Some c ∧
  (LanguageProvider_setLang oc c w).1 =
    match oc with
    | None => Normal ()
    | Some f => (f c (host w)).1
    end.
Proof.
  intros _. split; [apply LanguageProvider_setLang_cell|].
  rewrite LanguageProvider_setLang_unfold.
  destruct oc as [f|]; cbn; [|reflexivity].
  unfold call. cbn. now destruct (f c (host w)).
Qed.

(** C2 (as the code has it). When [onChange] throws, the exception reaches
    the caller of [setLang]: the provider neither catches nor logs it. The
    state update, issued before the callback ran, stays in effect. *)
Theorem setLang_onChange_throw_propagates f c w e :
  (f c (host w)).1 = Throw e →
  (LanguageProvider_setLang (Some f) c w).1 = Throw e ∧
  console (LanguageProvider_setLang (Some f) c w).2 = console w ∧
  langCell (LanguageProvider_setLang (Some f) c w).2 = Some c.
Proof.
  intros Hf. rewrite LanguageProvider_setLang_unfold. cbn.
  unfold call. cbn. destruct (f c (host w)) as [r h]. cbn in *.
  now subst r.
Qed.

(** C6. Inside a provider built with an [onChange], a call [setLang c]
    made through the accessor sets the state and then invokes [onChange]
    exactly once, with [c]: the trace grows by exactly these two events in
    this order, and the host state is the one [onChange c] leaves. Nothing
    depends on the language held before the call, so a call with the
    current language notifies as well. *)
Theorem setLang_invokes_onChange_once
    (ch : list Node) (d : option string) f c w :
  let props := {| children := ch; defaultLang := d; onChange := Some f |} in
  let w' := (consumer_setLang props c w).2 in
  trace w' = trace w ++ [StateSet c; Notified c] ∧
  host w' = (f c (host w)).2 ∧
  (consumer_setLang props c w).1 = (f c (host w)).1 ∧
  langCell w' = Some c.
Proof.
  intros props w'. subst w'.
  destruct (consumer_setLang_unfold props c w) as (c0 & ->).
  rewrite LanguageProvider_setLang_unfold. cbn.
  unfold call. cbn. destruct (f c (host w)) as [r h]. cbn.
  rewrite <- app_assoc. auto.
Qed.

(** C5. Inside a provider mounted with [defaultLang = c1], an access made
    before any write returns [c1]; after [setLang c2] an access returns
    [c2], from the fresh mount and from any other state of the provider,
    and whether or not [onChange] is present or throws. It holds for all
    strings, so in particular for the registry's codes. *)
Theorem access_reads_initial_and_latest_write
    (ch : list Node) (oc : option (Callback Host)) c1 c2 (e : Env) (h : Host) :
  let props := {| children := ch; defaultLang := Some c1; onChange := oc |} in
  (consumer_lang props (fresh e h)).1 = Normal c1 ∧
  (consumer_lang props (consumer_setLang props c2 (fresh e h)).2).1
    = Normal c2 ∧
  ∀ w, (consumer_lang props (consumer_setLang props c2 w).2).1 = Normal c2.
Proof.
  intros props.
  assert (Hw : ∀ w,
    (consumer_lang props (consumer_setLang props c2 w).2).1 = Normal c2).
  { intros w. rewrite consumer_lang_unfold.
    destruct (consumer_setLang_unfold props c2 w) as (c0 & ->).
    now rewrite LanguageProvider_setLang_cell. }
  split; [|split; [apply Hw | exact Hw]].
  now rewrite consumer_lang_unfold.
Qed.

(** ** Access without a provider *)

(** C3. Outside production mode, [useLanguage()] with no enclosing provider
    throws; the message names [LanguageProvider] as what is missing and
    tells to wrap the app in it. Nothing is written before the throw. *)
Theorem useLanguage_throws_without_provider_in_development w :
  NODE_ENV (env w) ≠ Some "production" →
  ∃ e, useLanguage [] w = (Throw e, w) ∧
    mentions (message e) "must be used within a LanguageProvider" ∧
    mentions (message e) "Wrap your app with <LanguageProvider>".
Proof.
  intros Hdev. exists (Error missing_provider_message).
  unfold useLanguage, bind, read_env. cbn.
  destruct (decide (NODE_ENV (env w) ≠ Some "production")) as [_|Hn];
    [|contradiction].
  split; [reflexivity|]. split.
  - exists "useLanguage ". eexists. reflexivity.
  - exists "useLanguage must be used within a LanguageProvider. ".
    eexists. reflexivity.
Qed.

(** C4. In production mode, [useLanguage()] with no enclosing provider
    returns the registry's first code, ['en'], and a [setLang] that, for any
    argument and in any later world, returns normally and changes nothing
    but the console, to which it adds one warning; an access made after
    such a call returns the same value again. *)
Theorem useLanguage_falls_back_without_provider_in_production w :
  NODE_ENV (env w) = Some "production" →
  ∃ context, useLanguage [] w = (Normal context, w) ∧
    lang context = "en" ∧
    head SUPPORTED_LANGUAGES.*1 = Some (lang context) ∧
    ∀ arg w1,
      setLang context arg w1 =
        (Normal (), with_console (console w1 ++ [fallback_warning]) w1) ∧
      (NODE_ENV (env w1) = Some "production" →
       (useLanguage [] (setLang context arg w1).2).1 = Normal context).
Proof.
  intros Hprod. eexists. unfold useLanguage, bind, read_env. cbn.
  destruct (decide (NODE_ENV (env w) ≠ Some "production")) as [Hn|_];
    [congruence|].
  split; [reflexivity|]. cbn. repeat split.
  intros Hp1. unfold console_warn. cbn.
  destruct (decide (NODE_ENV (env w1) ≠ Some "production")) as [Hn|_];
    [congruence|reflexivity].
Qed.

(** ** Access with a provider *)

(** C10. With at least one enclosing provider, [useLanguage()] returns the
    nearest provider's value as it is and writes nothing, in every world:
    two worlds that differ in [NODE_ENV] (or in anything else) give the same
    result. Only with no provider can the results of two worlds differ. *)
Theorem useLanguage_with_provider_ignores_mode
    (context : LanguageContextValue Host)
    (outer : list (LanguageContextValue Host)) w1 w2 :
  useLanguage (context :: outer) w1 = (Normal context, w1) ∧
  (useLanguage (context :: outer) w1).1
    = (useLanguage (context :: outer) w2).1 ∧
  ∀ scopes,
    (useLanguage scopes w1).1 ≠ (useLanguage scopes w2).1 → scopes = [].
Proof.
  repeat split.
  intros [|c0 rest] Hne; [reflexivity|].
  exfalso. apply Hne. reflexivity.
Qed.

(** ** Rendering *)

Lemma LANGUAGE_NAMES_agrees c name :
  (c, name) ∈ SUPPORTED_LANGUAGES → LANGUAGE_NAMES !! c = Some name.
Proof.
  unfold SUPPORTED_LANGUAGES. intros H.
  repeat (apply elem_of_cons in H as [H|H]; [injection H as -> ->; reflexivity|]).
  now apply elem_of_nil in H.
Qed.

(** C7 (as the code has it). The render follows the stored language state:
    when the state hook holds [c], on a mount whose [defaultLang] is [c]
    (or is absent, for ['en']), and after any [setLang c] made through the
    accessor, the provider's markup is a [div] whose [lang] attribute is
    [c] and whose first child is the status region (polite live region,
    screen-reader-only class), followed by the caller's children; consumers
    read [c] as well. When [c] is a code of the registry, the region holds
    exactly the registry's display name of [c]. *)
Theorem render_carries_lang_and_announces_name props c :
  (∀ w, langCell w = Some c → renders_language props w c) ∧
  (∀ w, langCell w = None → default "en" (defaultLang props) = c →
        renders_language props w c) ∧
  (∀ w, renders_language props (consumer_setLang props c w).2 c).
Proof.
  assert (Hread : ∀ w,
    match langCell w with
    | Some v => v
    | None => default "en" (defaultLang props)
    end = c → renders_language props w c).
  { intros w Hc.
    destruct (LanguageProvider_returns props w)
      as (r & c' & Hr & Hc' & Hl & _ & Hm).
    assert (c' = c) as -> by congruence.
    exists r, (jsx_text (LANGUAGE_NAMES !! c)). rewrite Hr, Hm. cbn.
    repeat split; auto.
    intros name Hname. now rewrite (LANGUAGE_NAMES_agrees _ _ Hname). }
  split; [|split].
  - intros w Hc. apply Hread. now rewrite Hc.
  - intros w Hnone Hd. apply Hread. now rewrite Hnone.
  - intros w. apply Hread.
    destruct (consumer_setLang_unfold props c w) as (c0 & ->).
    now rewrite LanguageProvider_setLang_cell.
Qed.

(** C8. The markup of a render is a function of the props and of the state
    hook alone: two worlds that hold the same language state give equal
    markup (hence equal bytes under any serialisation), whatever their
    [NODE_ENV], their having a [window] or not, their console, trace and
    host state. The very first render already carries the [lang] attribute,
    set to [defaultLang] (or ['en']); a render writes nothing but the
    initial value of the hook. *)
Theorem render_is_environment_independent props w1 w2 :
  langCell w1 = langCell w2 →
  ∃ r1 r2 c,
    LanguageProvider props w1 = (Normal r1, with_langCell (Some c) w1) ∧
    LanguageProvider props w2 = (Normal r2, with_langCell (Some c) w2) ∧
    markup r1 = markup r2 ∧
    (∀ serialize : Node → string,
       serialize (markup r1) = serialize (markup r2)) ∧
    attribute "lang" (markup r1) = Some c ∧
    (langCell w1 = None → c = default "en" (defaultLang props)).
Proof.
  intros Hcell.
  destruct (LanguageProvider_returns props w1)
    as (r1 & c1 & Hr1 & Hc1 & _ & _ & Hm1).
  destruct (LanguageProvider_returns props w2)
    as (r2 & c2 & Hr2 & Hc2 & _ & _ & Hm2).
  assert (c2 = c1) as -> by (subst; now rewrite Hcell).
  exists r1, r2, c1. rewrite Hr1, Hr2, Hm1, Hm2. cbn.
  repeat split; auto.
  intros Hnone. now rewrite Hnone in Hc1.
Qed.

(** ** The registry invariant *)

Lemma consumer_setLang_preserves props c w :
  Language c → lang_in_registry props (consumer_setLang props c w).2.
Proof.
  intros Hc. unfold lang_in_registry.
  destruct (consumer_setLang_unfold props c w) as (c0 & ->).
  now rewrite LanguageProvider_setLang_cell.
Qed.

Lemma after_calls_preserves props calls :
  Forall Language calls →
  ∀ w, lang_in_registry props w →
       lang_in_registry props (after_calls props calls w).
Proof.
  induction 1 as [|c cs Hc _ IH]; intros w Hw; [exact Hw|].
  cbn. apply IH. now apply consumer_setLang_preserves.
Qed.

(** C9 (as the code has it). From a mount whose [defaultLang] is absent or
    a registry code, and after any sequence of [setLang] calls whose
    arguments are registry codes, the language that consumers read and the
    [lang] attribute of the markup are one and the same registry code. *)
Theorem lang_stays_in_registry props calls (e : Env) (h : Host) :
  from_option Language True (defaultLang props) →
  Forall Language calls →
  ∃ r c, (LanguageProvider props (after_calls props calls (fresh e h))).1
           = Normal r ∧
    lang (value r) = c ∧
    attribute "lang" (markup r) = Some c ∧
    Language c.
Proof.
  intros Hd Hcalls.
  assert (Hinit : lang_in_registry props (fresh e h)).
  { unfold lang_in_registry. cbn.
    destruct (defaultLang props); cbn in *; [exact Hd|]. now vm_compute; left. }
  pose proof (after_calls_preserves props calls Hcalls _ Hinit) as Hinv.
  destruct (LanguageProvider_returns props (after_calls props calls (fresh e h)))
    as (r & c & Hr & Hc & Hl & _ & Hm).
  exists r, c. rewrite Hr, Hm. cbn.
  repeat split; auto.
  unfold lang_in_registry in Hinv. now rewrite <- Hc in Hinv.
Qed.

End Properties.

(** * The properties on concrete inputs *)

Lemma fr_not_a_Language : ¬ Language "fr".
Proof. apply (bool_decide_eq_false_1 (Language "fr")). reflexivity. Qed.

(** C1, as the specification words it, fails: with the current language
    ['en'], [setLang('fr')] raises nothing and the state changes. *)
Lemma setLang_validation_counterexample :
  let props := plain_props "en" in
  let w := (LanguageProvider props (fresh (node_env "development") ())).2 in
  let result := consumer_setLang props "fr" w in
  ¬ Language "fr" ∧
  langCell w = Some "en" ∧
  ¬ (∃ e, result.1 = Throw e) ∧
  langCell result.2 ≠ langCell w ∧
  result.2 ≠ w.
Proof.
  cbv zeta. split; [exact fr_not_a_Language|].
  split; [reflexivity|]. split.
  - intros [e He]. vm_compute in He. discriminate He.
  - split; intros H; vm_compute in H; discriminate H.
Qed.

Lemma setLang_unlisted_code_is_stored_witness :
  let w := fresh (node_env "development") () in
  ¬ Language "fr" ∧
  langCell (LanguageProvider_setLang None "fr" w).2 = Some "fr" ∧
  (LanguageProvider_setLang None "fr" w).1 = Normal ().
Proof.
  cbv zeta. split; [exact fr_not_a_Language|].
  exact (setLang_unlisted_code_is_stored None "fr"
           (fresh (node_env "development") ()) fr_not_a_Language).
Defined.

(** C2, as the specification words it, fails: a throwing [onChange] makes
    the [setLang] call itself throw, and nothing is logged. *)
Lemma onChange_containment_counterexample :
  let props :=
    {| children := []; defaultLang := Some "en";
       onChange := Some failing_onChange |} in
  let result := consumer_setLang props "ja" (fresh (node_env "production") ()) in
  result.1 = Throw (Error "onChange failed") ∧
  result.1 ≠ Normal () ∧
  console result.2 = [].
Proof.
  cbv zeta. split; [reflexivity|]. split; [|reflexivity].
  intros H. vm_compute in H. discriminate H.
Qed.

Lemma setLang_onChange_throw_propagates_witness :
  let w := fresh (node_env "production") () in
  let result := LanguageProvider_setLang (Some failing_onChange) "ja" w in
  result.1 = Throw (Error "onChange failed") ∧
  console result.2 = console w ∧
  langCell result.2 = Some "ja".
Proof.
  cbv zeta.
  exact (setLang_onChange_throw_propagates failing_onChange "ja"
           (fresh (node_env "production") ()) (Error "onChange failed")
           eq_refl).
Defined.

Lemma development_is_not_production :
  NODE_ENV (env (fresh (node_env "development") ())) ≠ Some "production".
Proof. intros H. discriminate H. Qed.

Lemma useLanguage_throws_without_provider_in_development_witness :
  let w := fresh (node_env "development") () in
  ∃ e, useLanguage [] w = (Throw e, w) ∧
    mentions (message e) "must be used within a LanguageProvider" ∧
    mentions (message e) "Wrap your app with <LanguageProvider>".
Proof.
  cbv zeta.
  exact (useLanguage_throws_without_provider_in_development
           (fresh (node_env "development") ()) development_is_not_production).
Defined.

(** An undefined [NODE_ENV] counts as development. *)
Example useLanguage_throws_when_NODE_ENV_undefined :
  (useLanguage []
     (fresh {| NODE_ENV := None; hasWindow := true |} ())).1
  = Throw (Error missing_provider_message).
Proof. reflexivity. Qed.

Lemma useLanguage_falls_back_without_provider_in_production_witness :
  let w := fresh (node_env "production") () in
  ∃ context, useLanguage [] w = (Normal context, w) ∧
    lang context = "en" ∧
    head SUPPORTED_LANGUAGES.*1 = Some (lang context) ∧
    ∀ arg w1,
      setLang context arg w1 =
        (Normal (), with_console (console w1 ++ [fallback_warning]) w1) ∧
      (NODE_ENV (env w1) = Some "production" →
       (useLanguage [] (setLang context arg w1).2).1 = Normal context).
Proof.
  cbv zeta.
  exact (useLanguage_falls_back_without_provider_in_production
           (fresh (node_env "production") ()) eq_refl).
Defined.

(** C7, as the specification words it, fails: [setLang] accepts ['fr'], the
    registry has no display name for it, and the region is rendered with no
    text at all. *)
Lemma announcement_counterexample :
  let props := plain_props "en" in
  let w := after_calls props ["fr"] (fresh (node_env "production") ()) in
  langCell w = Some "fr" ∧
  (LanguageProvider props w).1
    = Normal {| value := {| lang := "fr";
                            setLang := LanguageProvider_setLang None |};
                markup := Element "div" [("lang", "fr")]
                            [announcement []] |} ∧
  ∀ name, ("fr", name) ∉ SUPPORTED_LANGUAGES.
Proof.
  cbv zeta. split; [reflexivity|]. split; [reflexivity|].
  intros name H. apply fr_not_a_Language.
  unfold Language. apply list_elem_of_fmap. now exists ("fr", name).
Qed.

Lemma ja_is_Japanese : ("ja", "Japanese") ∈ SUPPORTED_LANGUAGES.
Proof. unfold SUPPORTED_LANGUAGES. apply list_elem_of_further, list_elem_of_here. Qed.

Lemma zh_tw_is_Traditional_Chinese :
  ("zh-tw", "Traditional Chinese") ∈ SUPPORTED_LANGUAGES.
Proof.
  unfold SUPPORTED_LANGUAGES.
  apply list_elem_of_further, list_elem_of_further, list_elem_of_here.
Qed.

Lemma render_carries_lang_and_announces_name_witness :
  let props := plain_props "ja" in
  let w0 := fresh (node_env "production") () in
  let held := with_langCell (Some "zh-tw") w0 in
  let shows (w : World ()) (c name : string) :=
    ∃ r, (LanguageProvider props w).1 = Normal r ∧
      lang (value r) = c ∧
      attribute "lang" (markup r) = Some c ∧
      childNodes (markup r) = [announcement [Text name]] in
  shows w0 "ja" "Japanese" ∧
  shows held "zh-tw" "Traditional Chinese" ∧
  shows (consumer_setLang props "zh-tw" w0).2 "zh-tw" "Traditional Chinese".
Proof.
  intros props w0 held shows.
  destruct (render_carries_lang_and_announces_name props "ja")
    as (_ & Hmount & _).
  destruct (render_carries_lang_and_announces_name props "zh-tw")
    as (Hheld & _ & Hset).
  assert (Hshow : ∀ w c name, (c, name) ∈ SUPPORTED_LANGUAGES →
                    renders_language props w c → shows w c name).
  { intros w c name Hname (r & text & Hr & Hl & Ha & Hk & Ht).
    exists r. rewrite (Ht name Hname) in Hk. auto. }
  split; [|split].
  - exact (Hshow w0 "ja" "Japanese" ja_is_Japanese (Hmount w0 eq_refl eq_refl)).
  - exact (Hshow held "zh-tw" "Traditional Chinese"
             zh_tw_is_Traditional_Chinese (Hheld held eq_refl)).
  - exact (Hshow _ "zh-tw" "Traditional Chinese"
             zh_tw_is_Traditional_Chinese (Hset w0)).
Defined.

(** The scenario of the specification: mounted with ['ja'], then
    [setLang('zh-tw')] with a recording [onChange]. *)
Example scenario_ja_then_zh_tw :
  let props :=
    {| children := [Text "body"]; defaultLang := Some "ja";
       onChange := Some recording_onChange |} in
  let w0 := fresh (node_env "production") [] in
  let w1 := (consumer_setLang props "zh-tw" w0).2 in
  (LanguageProvider props w0).1
    = Normal {| value := {| lang := "ja";
                            setLang := LanguageProvider_setLang
                                         (Some recording_onChange) |};
                markup := Element "div" [("lang", "ja")]
                            [announcement [Text "Japanese"];
                             Text "body"] |} ∧
  (LanguageProvider props w1).1
    = Normal {| value := {| lang := "zh-tw";
                            setLang := LanguageProvider_setLang
                                         (Some recording_onChange) |};
                markup := Element "div" [("lang", "zh-tw")]
                            [announcement [Text "Traditional Chinese"];
                             Text "body"] |} ∧
  host w1 = ["zh-tw"].
Proof. cbv zeta. repeat split. Qed.

(** A call with the language already current notifies again. *)
Example same_value_setLang_notifies_again :
  let props :=
    {| children := []; defaultLang := Some "en";
       onChange := Some recording_onChange |} in
  let w1 := (consumer_setLang props "en" (fresh (node_env "production") [])).2 in
  let w2 := (consumer_setLang props "en" w1).2 in
  host w1 = ["en"] ∧ host w2 = ["en"; "en"] ∧
  trace w2 = [StateSet "en"; Notified "en"; StateSet "en"; Notified "en"].
Proof. cbv zeta. repeat split. Qed.

Lemma render_is_environment_independent_witness :
  let props := plain_props "ja" in
  let w1 := fresh server_env () in
  let w2 := fresh client_env () in
  ∃ r1 r2 c,
    LanguageProvider props w1 = (Normal r1, with_langCell (Some c) w1) ∧
    LanguageProvider props w2 = (Normal r2, with_langCell (Some c) w2) ∧
    markup r1 = markup r2 ∧
    (∀ serialize : Node → string,
       serialize (markup r1) = serialize (markup r2)) ∧
    attribute "lang" (markup r1) = Some c ∧
    (langCell w1 = None → c = default "en" (defaultLang props)).
Proof.
  cbv zeta.
  exact (render_is_environment_independent (plain_props "ja")
           (fresh server_env ()) (fresh client_env ()) eq_refl).
Defined.

(** C9, as the specification words it, fails: [setLang] accepts any string,
    so one call with an unlisted code takes the state, and the [lang]
    attribute with it, out of the registry. *)
Lemma lang_in_registry_counterexample :
  let props := plain_props "en" in
  let w := after_calls props ["fr"] (fresh (node_env "production") ()) in
  (consumer_lang props w).1 = Normal "fr" ∧
  (∃ r, (LanguageProvider props w).1 = Normal r ∧
        attribute "lang" (markup r) = Some "fr") ∧
  ¬ Language "fr".
Proof.
  cbv zeta. split; [reflexivity|]. split; [|exact fr_not_a_Language].
  eexists. split; reflexivity.
Qed.

Lemma zh_tw_en_are_Languages : Forall Language ["zh-tw"; "en"].
Proof.
  repeat constructor;
    match goal with
    | |- Language ?c => apply (bool_decide_eq_true_1 (Language c)); reflexivity
    end.
Qed.

Lemma lang_stays_in_registry_witness :
  let props := plain_props "ja" in
  let w := after_calls props ["zh-tw"; "en"] (fresh (node_env "production") ()) in
  ∃ r c, (LanguageProvider props w).1 = Normal r ∧
    lang (value r) = c ∧
    attribute "lang" (markup r) = Some c ∧
    Language c.
Proof.
  cbv zeta.
  refine (lang_stays_in_registry (plain_props "ja") ["zh-tw"; "en"]
            (node_env "production") () _ zh_tw_en_are_Languages).
  cbn. apply (bool_decide_eq_true_1 (Language "ja")). reflexivity.
Defined.

Lemma useLanguage_with_provider_ignores_mode_witness :
  let w1 := fresh (node_env "development") () in
  let w2 := fresh (node_env "production") () in
  useLanguage [inert_context "ja"] w1 = (Normal (inert_context "ja"), w1) ∧
  (useLanguage [inert_context "ja"] w1).1
    = (useLanguage [inert_context "ja"] w2).1 ∧
  (useLanguage [] w1).1 ≠ (useLanguage [] w2).1 ∧
  ([] : list (LanguageContextValue ())) = [].
Proof.
  cbv zeta.
  assert (Hdiff : (useLanguage [] (fresh (node_env "development") ())).1
                  ≠ (useLanguage [] (fresh (node_env "production") ())).1).
  { intros H. vm_compute in H. discriminate H. }
  destruct (useLanguage_with_provider_ignores_mode (inert_context "ja") []
              (fresh (node_env "development") ())
              (fresh (node_env "production") ())) as (H1 & H2 & H3).
  split; [exact H1|]. split; [exact H2|].
  split; [exact Hdiff | exact (H3 [] Hdiff)].
Defined.

(** Nested providers: a consumer reads the innermost one. *)
Example inner_provider_shadows_outer :
  ∀ w : World (),
    (useLanguage [inert_context "en"; inert_context "ja"] w).1
      = Normal (inert_context "en") ∧
    (useLanguage [inert_context "ja"] w).1 = Normal (inert_context "ja").
Proof. intros w. split; reflexivity. Qed.

(** * Further properties of the i18n module *)

Section MoreProperties.

Context {Host : Type}.
Implicit Types (w : World Host) (props : LanguageProviderProps Host).
Implicit Types (c : string) (oc : option (Callback Host)).

Lemma with_langCell_same w c : langCell w = Some c → with_langCell (Some c) w = w.
Proof. destruct w as [e cell co t h]. cbn. now intros ->. Qed.

Lemma with_console_same w : with_console (console w) w = w.
Proof. now destruct w. Qed.

(** X1. [useLanguage()] only reads: in every case the world after the call
    is the world before it (no warning is logged by the access itself). It
    throws exactly when no provider encloses the caller and [NODE_ENV] is
    not ['production']. *)
Theorem useLanguage_only_reads_and_throws_iff
    (scopes : list (LanguageContextValue Host)) w :
  (useLanguage scopes w).2 = w ∧
  ((∃ e, (useLanguage scopes w).1 = Throw e) ↔
   scopes = [] ∧ NODE_ENV (env w) ≠ Some "production").
Proof.
  destruct scopes as [|context outer]; cbn.
  - unfold useLanguage, bind, read_env. cbn.
    destruct (decide (NODE_ENV (env w) ≠ Some "production")) as [Hd|Hp]; cbn.
    + split; [reflexivity|]. split; [auto | eauto].
    + split; [reflexivity|]. split.
      * intros [e He]. discriminate He.
      * intros [_ Hd]. contradiction.
  - split; [reflexivity|]. split.
    + intros [e He]. discriminate He.
    + intros [Hnil _]. discriminate Hnil.
Qed.

(** X2. The fallback [setLang] that production mode hands out without a
    provider logs one warning per call, whatever the arguments: after [n]
    calls the console has grown by [n] copies of the warning, and nothing
    else in the world has changed. *)
Theorem fallback_setLang_warns_on_every_call w :
  NODE_ENV (env w) = Some "production" →
  ∃ context, (useLanguage [] w).1 = Normal context ∧
    ∀ (args : list string) (w1 : World Host),
      foldl (λ w' a, (setLang context a w').2) w1 args
      = with_console
          (console w1 ++ replicate (length args) fallback_warning) w1.
Proof.
  intros Hprod. eexists. unfold useLanguage, bind, read_env. cbn.
  destruct (decide (NODE_ENV (env w) ≠ Some "production")) as [Hn|_];
    [congruence|].
  split; [reflexivity|]. cbn.
  intros args. induction args as [|a args IH]; intros w1; cbn.
  - rewrite app_nil_r. symmetry. apply with_console_same.
  - rewrite IH. unfold console_warn, with_console. cbn.
    now rewrite <- app_assoc.
Qed.

(** X3. [defaultLang] is read at mount only: once the state hook holds a
    language, two renders whose props differ in [defaultLang] return the
    same context value and the same markup, namely those of the held
    language, and write nothing. *)
Theorem defaultLang_is_read_only_at_mount
    (ch : list Node) oc (d1 d2 : option string) w c :
  langCell w = Some c →
  LanguageProvider {| children := ch; defaultLang := d1; onChange := oc |} w
  = LanguageProvider {| children := ch; defaultLang := d2; onChange := oc |} w ∧
  ∃ r,
    LanguageProvider {| children := ch; defaultLang := d1; onChange := oc |} w
    = (Normal r, w) ∧
    lang (value r) = c ∧
    attribute "lang" (markup r) = Some c.
Proof.
  intros Hc. unfold LanguageProvider, bind, useState. rewrite Hc. cbn.
  split; [reflexivity|]. eexists. split; [reflexivity|]. now cbn.
Qed.

(** X4. A render is stable: rendering again in the world that a render
    left returns the same context value and markup and leaves that world
    as it is. After a render the state hook holds the language that
    consumers read, and the markup's [lang] attribute is that language, in
    every state (registry code or not). *)
Theorem rerender_is_stable props w :
  ∃ r w',
    LanguageProvider props w = (Normal r, w') ∧
    LanguageProvider props w' = (Normal r, w') ∧
    langCell w' = Some (lang (value r)) ∧
    attribute "lang" (markup r) = Some (lang (value r)).
Proof.
  unfold LanguageProvider, bind, useState.
  destruct (langCell w) as [c|] eqn:Hc; cbn.
  - eexists _, w. split; [reflexivity|]. rewrite Hc. cbn.
    split; [reflexivity|]. now split.
  - eexists _, _. split; [reflexivity|]. cbn.
    split; [reflexivity|]. now split.
Qed.

(** X5. What [setLang] leaves alone: it never writes to the console or the
    environment, whatever [onChange] does. Without an [onChange] it returns
    normally, the host state is untouched and the trace grows by the state
    update alone; with one, the host state is exactly what the callback
    returns. *)
Theorem setLang_frame oc c w :
  let result := LanguageProvider_setLang oc c w in
  env result.2 = env w ∧
  console result.2 = console w ∧
  match oc with
  | None =>
      result.1 = Normal () ∧ host result.2 = host w ∧
      trace result.2 = trace w ++ [StateSet c]
  | Some f =>
      result.1 = (f c (host w)).1 ∧ host result.2 = (f c (host w)).2 ∧
      trace result.2 = trace w ++ [StateSet c; Notified c]
  end.
Proof.
  cbv zeta. rewrite LanguageProvider_setLang_unfold.
  destruct oc as [f|]; cbn.
  - unfold call. cbn. destruct (f c (host w)) as [r h]. cbn.
    rewrite <- app_assoc. auto.
  - auto.
Qed.

(** The events of one call. *)
Lemma consumer_setLang_step props c w :
  let w' := (consumer_setLang props c w).2 in
  env w' = env w ∧ console w' = console w ∧ langCell w' = Some c ∧
  trace w' = trace w ++ StateSet c ::
               match onChange props with Some _ => [Notified c] | None => [] end ∧
  host w' = match onChange props with
            | Some f => (f c (host w)).2
            | None => host w
            end.
Proof.
  cbv zeta. destruct (consumer_setLang_unfold props c w) as (c0 & ->).
  rewrite LanguageProvider_setLang_unfold.
  destruct (onChange props) as [f|]; cbn; [|auto].
  unfold call. cbn. destruct (f c (host w)) as [r h]. cbn.
  rewrite <- app_assoc. auto.
Qed.

(** X6. A sequence of [setLang] calls made through the accessor composes
    call by call, in order, whether or not some [onChange] throws: the trace
    grows by the state update of each call followed, when an [onChange] was
    supplied, by its notification; the host state is the callbacks applied
    in call order; the console and the environment are untouched; and the
    state hook then holds the last argument (the last write wins). *)
Theorem after_calls_compose props (calls : list string) w :
  let w' := after_calls props calls w in
  trace w' =
    trace w ++
    flat_map (λ c, StateSet c ::
                   match onChange props with
                   | Some _ => [Notified c]
                   | None => []
                   end) calls ∧
  host w' =
    match onChange props with
    | Some f => foldl (λ h c, (f c h).2) (host w) calls
    | None => host w
    end ∧
  console w' = console w ∧
  env w' = env w ∧
  langCell w' = from_option Some (langCell w) (last calls).
Proof.
  cbv zeta. revert w.
  induction calls as [|c calls IH]; intros w.
  - cbn. rewrite app_nil_r. now destruct (onChange props).
  - cbn [after_calls foldl].
    pose proof (consumer_setLang_step props c w) as Hstep. cbv zeta in Hstep.
    destruct Hstep as (He & Hco & Hcell & Ht & Hh).
    specialize (IH (consumer_setLang props c w).2).
    unfold after_calls in IH.
    destruct IH as (IHt & IHh & IHco & IHe & IHcell).
    rewrite IHt, IHh, IHco, IHe, IHcell, Ht, Hh, Hco, He, Hcell.
    repeat split.
    + cbn [flat_map]. rewrite <- app_assoc. reflexivity.
    + now destruct (onChange props).
    + rewrite last_cons. now destruct (last calls).
Qed.

(** X7. The table of display names in [LanguageProvider.tsx] and the
    registry in [types.ts] hold the same entries: a code has a display name
    in the table exactly when the registry lists the pair, the registry
    lists no code twice, and the table has no entry for a code that is not
    a [Language]. *)
Theorem LANGUAGE_NAMES_is_the_registry c name :
  (LANGUAGE_NAMES !! c = Some name ↔ (c, name) ∈ SUPPORTED_LANGUAGES) ∧
  NoDup SUPPORTED_LANGUAGES.*1 ∧
  (LANGUAGE_NAMES !! c = None ↔ ¬ Language c).
Proof.
  assert (Hnd : NoDup SUPPORTED_LANGUAGES.*1).
  { apply (bool_decide_eq_true_1 (NoDup SUPPORTED_LANGUAGES.*1)). reflexivity. }
  assert (Heq : LANGUAGE_NAMES = list_to_map SUPPORTED_LANGUAGES)
    by reflexivity.
  split; [|split; [exact Hnd|]].
  - rewrite Heq. symmetry. now apply elem_of_list_to_map.
  - rewrite Heq. unfold Language. now rewrite not_elem_of_list_to_map.
Qed.

(** X8. The zero-configuration defaults agree: a provider mounted without
    [defaultLang] and the production fallback of [useLanguage()] without a
    provider expose the same language, the first code of the registry. *)
Theorem defaults_agree (ch : list Node) oc (e : Env) (h : Host) w :
  NODE_ENV (env w) = Some "production" →
  ∃ c context,
    (consumer_lang {| children := ch; defaultLang := None; onChange := oc |}
       (fresh e h)).1 = Normal c ∧
    (useLanguage [] w).1 = Normal context ∧
    lang context = c ∧
    head SUPPORTED_LANGUAGES.*1 = Some c.
Proof.
  intros Hprod. rewrite consumer_lang_unfold. cbn.
  unfold useLanguage, bind, read_env. cbn.
  destruct (decide (NODE_ENV (env w) ≠ Some "production")) as [Hn|_];
    [congruence|].
  eexists _, _. repeat split.
Qed.

End MoreProperties.

Lemma fallback_setLang_warns_on_every_call_witness :
  let w := fresh (node_env "production") () in
  ∃ context, (useLanguage [] w).1 = Normal context ∧
    ∀ (args : list string) (w1 : World ()),
      foldl (λ w' a, (setLang context a w').2) w1 args
      = with_console
          (console w1 ++ replicate (length args) fallback_warning) w1.
Proof.
  cbv zeta.
  exact (fallback_setLang_warns_on_every_call
           (fresh (node_env "production") ()) eq_refl).
Defined.

Lemma defaultLang_is_read_only_at_mount_witness :
  let w := (LanguageProvider (plain_props "ja") (fresh client_env ())).2 in
  LanguageProvider (plain_props "ja") w = LanguageProvider (plain_props "en") w ∧
  ∃ r, LanguageProvider (plain_props "ja") w = (Normal r, w) ∧
       lang (value r) = "ja" ∧
       attribute "lang" (markup r) = Some "ja".
Proof.
  cbv zeta.
  exact (defaultLang_is_read_only_at_mount [] None (Some "ja") (Some "en")
           (LanguageProvider (plain_props "ja") (fresh client_env ())).2
           "ja" eq_refl).
Defined.

Lemma defaults_agree_witness :
  ∃ c context,
    (consumer_lang
       {| children := []; defaultLang := None; onChange := None |}
       (fresh client_env ())).1 = Normal c ∧
    (useLanguage [] (fresh server_env ())).1 = Normal context ∧
    lang context = c ∧
    head SUPPORTED_LANGUAGES.*1 = Some c.
Proof.
  exact (defaults_agree [] None client_env () (fresh server_env ()) eq_refl).
Defined.

(** Three calls, the second of which throws: every call is notified, in
    order, and the last write wins. *)
Example calls_compose_past_a_throw :
  let flaky : Callback (list string) :=
    λ c h, (if decide (c = "ja") then Throw (Error "no") else Normal (),
            h ++ [c]) in
  let props :=
    {| children := []; defaultLang := None; onChange := Some flaky |} in
  let w := after_calls props ["en"; "ja"; "zh-tw"] (fresh client_env []) in
  host w = ["en"; "ja"; "zh-tw"] ∧ langCell w = Some "zh-tw" ∧
  (consumer_setLang props "ja" w).1 = Throw (Error "no").
Proof. cbv zeta. repeat split. Qed.

(** * Properties of the Heading component *)

Section HeadingProperties.

Import Typography.

Variable cva : string → VariantConfig → list (string * option string) → string.
Variable cn : string → option string → string.
Implicit Types p : HeadingProps.

Lemma headingTag_truthy t : t ∈ headingTags → truthy t = true.
Proof.
  unfold headingTags. intros H.
  repeat (apply elem_of_cons in H as [->|H]; [reflexivity|]).
  now apply elem_of_nil in H.
Qed.

(** X9. For props of the declared types, [Heading] renders a heading
    element: the tag is [as] when [as] is given, otherwise [level] when
    [level] is given, otherwise ['h2']; it is always one of [h1] to [h6].
    The level handed to [headingVariants] goes the other way round: it is
    [level] when given, otherwise [as], otherwise undefined. The remaining
    attributes follow the computed [className], and the children are passed
    through. *)
Theorem Heading_renders_a_heading_element p :
  from_option (λ t, t ∈ headingTags) True (as_ p) →
  from_option (λ t, t ∈ headingTags) True (level p) →
  ∃ tag styled,
    Heading cva cn p
    = Element tag
        (("className",
          cn (cva "font-sans tracking-tight" headingConfig
                [("level", styled); ("variant", variant p)])
             (className p))
         :: rest_attrs p)
        (rest_children p) ∧
    tag ∈ headingTags ∧
    tag = from_option id (from_option id "h2" (level p)) (as_ p) ∧
    styled = from_option Some (as_ p) (level p).
Proof.
  intros Ha Hl. eexists _, _. split; [reflexivity|].
  unfold Heading_Component, js_or_literal, js_or.
  destruct (as_ p) as [a|], (level p) as [l|]; cbn in *;
    rewrite ?(headingTag_truthy a Ha), ?(headingTag_truthy l Hl);
    rewrite ?(headingTag_truthy a Ha); auto.
  repeat split. apply list_elem_of_further, list_elem_of_here.
Qed.

(** X10. Unless [as] and [level] are both given and differ, the heading
    looks like what it is: the level handed to [headingVariants] (in the
    [className] that is rendered) is the tag of the element, or it is
    undefined and the tag is the level that [headingVariants] is configured
    to default to. *)
Theorem Heading_style_level_matches_element p :
  from_option (λ t, t ∈ headingTags) True (as_ p) →
  from_option (λ t, t ∈ headingTags) True (level p) →
  (∀ a l, as_ p = Some a → level p = Some l → a = l) →
  ∃ tag styled,
    Heading cva cn p
    = Element tag
        (("className",
          cn (cva "font-sans tracking-tight" headingConfig
                [("level", styled); ("variant", variant p)])
             (className p))
         :: rest_attrs p)
        (rest_children p) ∧
    (styled = Some tag ∨
     styled = None ∧ ("level", tag) ∈ defaultVariants headingConfig).
Proof.
  intros Ha Hl Hsame. eexists _, _. split; [reflexivity|].
  unfold Heading_Component, js_or_literal, js_or.
  destruct (as_ p) as [a|], (level p) as [l|]; cbn in *.
  - rewrite (Hsame a l eq_refl eq_refl) in *.
    rewrite !(headingTag_truthy l Hl). now left.
  - rewrite !(headingTag_truthy a Ha). now left.
  - rewrite !(headingTag_truthy l Hl). now left.
  - right. split; [reflexivity|]. apply list_elem_of_here.
Qed.

(** X11. Whatever the props, also outside their declared types, [Heading]
    never renders an element with an empty tag: an empty [as] falls through
    to [level], and an empty [level] to ['h2']. *)
Theorem Heading_never_renders_an_empty_tag p :
  ∃ tag attrs kids,
    Heading cva cn p = Element tag attrs kids ∧
    tag ≠ EmptyString ∧
    (as_ p = Some EmptyString → tag = js_or_literal (level p) "h2") ∧
    (as_ p = Some EmptyString → level p = Some EmptyString → tag = "h2").
Proof.
  eexists _, _, _. split; [reflexivity|].
  unfold Heading_Component, js_or_literal, js_or.
  split; [|split].
  - destruct (as_ p) as [[|x a]|]; cbn;
      try (destruct (level p) as [[|y l]|]; cbn); discriminate.
  - now intros ->.
  - now intros -> ->.
Qed.

End HeadingProperties.

Lemma Heading_renders_a_heading_element_witness :
  let p :=
    {| Typography.as_ := Some "h1"; Typography.level := None;
       Typography.variant := Some "muted"; Typography.className := None;
       Typography.rest_attrs := [("id", "title")];
       Typography.rest_children := [Text "Hello"] |} in
  let cva := λ (base : string) (_ : Typography.VariantConfig)
               (_ : list (string * option string)), base in
  let cn := λ (a : string) (_ : option string), a in
  ∃ tag styled,
    Typography.Heading cva cn p
    = Element tag
        (("className",
          cn (cva "font-sans tracking-tight" Typography.headingConfig
                [("level", styled); ("variant", Typography.variant p)])
             (Typography.className p))
         :: Typography.rest_attrs p)
        (Typography.rest_children p) ∧
    tag ∈ Typography.headingTags ∧
    tag = from_option id (from_option id "h2" (Typography.level p))
            (Typography.as_ p) ∧
    styled = from_option Some (Typography.as_ p) (Typography.level p).
Proof.
  intros p cva cn.
  apply (Heading_renders_a_heading_element cva cn p); [|exact I].
  apply list_elem_of_here.
Defined.

Lemma Heading_style_level_matches_element_witness :
  let p :=
    {| Typography.as_ := None; Typography.level := Some "h3";
       Typography.variant := None; Typography.className := Some "mt-4";
       Typography.rest_attrs := []; Typography.rest_children := [] |} in
  let cva := λ (base : string) (_ : Typography.VariantConfig)
               (_ : list (string * option string)), base in
  let cn := λ (a : string) (_ : option string), a in
  ∃ tag styled,
    Typography.Heading cva cn p
    = Element tag
        (("className",
          cn (cva "font-sans tracking-tight" Typography.headingConfig
                [("level", styled); ("variant", Typography.variant p)])
             (Typography.className p))
         :: Typography.rest_attrs p)
        (Typography.rest_children p) ∧
    (styled = Some tag ∨
     styled = None ∧
     ("level", tag) ∈ Typography.defaultVariants Typography.headingConfig).
Proof.
  intros p cva cn.
  apply (Heading_style_level_matches_element cva cn p); [exact I| |].
  - apply list_elem_of_further, list_elem_of_further, list_elem_of_here.
  - intros a l Ha. discriminate Ha.
Defined.

Lemma Heading_never_renders_an_empty_tag_witness :
  let p :=
    {| Typography.as_ := Some EmptyString;
       Typography.level := Some EmptyString;
       Typography.variant := None; Typography.className := None;
       Typography.rest_attrs := []; Typography.rest_children := [] |} in
  let cva := λ (base : string) (_ : Typography.VariantConfig)
               (_ : list (string * option string)), base in
  let cn := λ (a : string) (_ : option string), a in
  ∃ attrs kids, Typography.Heading cva cn p = Element "h2" attrs kids.
Proof.
  intros p cva cn.
  destruct (Heading_never_renders_an_empty_tag cva cn p)
    as (tag & attrs & kids & Heq & _ & _ & Hboth).
  rewrite (Hboth eq_refl eq_refl) in Heq. eauto.
Defined.
